(** * Keccak-fParts: rows, slices, lanes and parities of Keccak-f

    A shallow embedding of [Sources/Keccak-fParts.h] of KeccakTools and the
    properties of its packed state representations.

    The C++ integer types are modelled as [Z] with the wrap-around of each
    type written out: [RowValue] is an [unsigned char] (8 bits),
    [SliceValue] a [UINT32], [LaneValue] and [PackedParities] a [UINT64],
    and coordinates are [unsigned int] (32 bits).  Vectors are lists indexed
    by position.

    The header defines its five inline functions and declares the others;
    the functions it only declares are modelled from the specification, each
    one marked as such. *)

From Stdlib Require Import ZArith Lia Bool List.
From stdpp Require Import base list.

Local Open Scope Z_scope.

(** ** Fixed-width unsigned integers *)

Module Word.

(** Conversion to an unsigned type of [w] bits keeps the value modulo
    [2^w]. *)
Definition wrap (w x : Z) : Z := x mod 2 ^ w.

Definition uint8 (x : Z) : Z := wrap 8 x.
Definition uint32 (x : Z) : Z := wrap 32 x.
Definition uint64 (x : Z) : Z := wrap 64 x.

(** [x << n] on an unsigned type of [w] bits.  C++ defines it for
    [n < w] only; there it is the product by [2^n] modulo [2^w], which is
    what this definition computes for every [n]. *)
Definition shl (w x n : Z) : Z := wrap w (Z.shiftl x n).

(** [x >> n] on an unsigned value.  Defined by C++ for [n] below the
    width of [x]; beyond it this model yields [0]. *)
Definition shr (x n : Z) : Z := Z.shiftr x n.

(** [~x] on an unsigned type of [w] bits. *)
Definition compl (w x : Z) : Z := wrap w (Z.lnot x).

(** [x] is a value of the unsigned type of [w] bits. *)
Definition fits (w x : Z) : Prop := 0 <= x < 2 ^ w.

End Word.

Import Word.

(** ** Rows and slices *)

Definition nrRowsAndColumns : Z := 5.

(** The typedefs of the header; all of them are integer types, told apart
    by their widths only. *)
Abbreviation RowValue := Z (only parsing).
Abbreviation SliceValue := Z (only parsing).
Abbreviation PackedParities := Z (only parsing).

Definition maxSliceValue : SliceValue := 0x1FFFFFF.

(** [return (SliceValue)row << (5*y);] *)
Definition getSliceFromRow (row : RowValue) (y : Z) : SliceValue :=
  shl 32 (uint32 row) (uint32 (5 * y)).

(** [return (slice >> (5*y)) & 0x1F;] converted to [RowValue]. *)
Definition getRowFromSlice (slice : SliceValue) (y : Z) : RowValue :=
  uint8 (Z.land (shr slice (uint32 (5 * y))) 0x1F).

(** [if (dx == 0) return row;
     else return ((row << dx) | (row >> (5-dx))) & 0x1F;]
    The row is promoted to [int] before it is shifted, so the left shift
    does not wrap; [5-dx] is computed on [unsigned int]. *)
Definition translateRow (row : RowValue) (dx : Z) : RowValue :=
  if dx =? 0 then row
  else uint8 (Z.land (Z.lor (Z.shiftl row dx) (shr row (uint32 (5 - dx)))) 0x1F).

(** ** Packed parities *)

(** [return (PackedParities)parity << (5*z);] *)
Definition getParitiesFromParity (parity : RowValue) (z : Z) : PackedParities :=
  shl 64 (uint64 parity) (uint32 (5 * z)).

(** [return (parities >> (5*z)) & 0x1F;] converted to [RowValue]. *)
Definition getParityFromParities (parities : PackedParities) (z : Z) : RowValue :=
  uint8 (Z.land (shr parities (uint32 (5 * z))) 0x1F).

(** ** Vectors *)

(** [v[i]] and [v[i] = x] on a [vector].  An index past the end is outside
    the contract of [operator[]]; the model then reads [0] and writes
    nothing. *)
Definition vget (v : list Z) (i : Z) : Z := default 0 (v !! Z.to_nat i).

Definition vset (v : list Z) (i : Z) (x : Z) : list Z := <[Z.to_nat i := x]> v.

(** The coordinates [0 .. 4] a loop over x or over y runs through. *)
Definition coordinates : list Z := seqZ 0 nrRowsAndColumns.

(** Modelled from the spec: [LaneValue] is declared in Keccak-f.h, which is
    not part of the sources at hand; a lane is a word of the native width,
    taken to be the 64 bits of [PackedParities]. *)
Abbreviation LaneValue := Z (only parsing).

Definition laneBits : Z := 64.

(** ** The state as a vector of slices *)

(** Modelled from the spec: the embedded row that [setRow] ORs into a
    slice is the one of the row codec of the spec, the row at bit offset 5y
    and all other bits zero, masked on construction: the row is reduced to
    its 5 bits and then placed by [getSliceFromRow]. *)
Definition embedRow (row : RowValue) (y : Z) : SliceValue :=
  getSliceFromRow (Z.land row 0x1F) y.

Module Slices.

(** Modelled from the spec: the body of [getRow(const vector<SliceValue>&,
    y, z)] is missing, only its declaration is at hand; the row is
    [extractRow(state[z], y)]. *)
Definition getRow (slices : list SliceValue) (y z : Z) : RowValue :=
  getRowFromSlice (vget slices z) y.

(** Modelled from the spec: the body of [setRow(vector<SliceValue>&, row,
    y, z)] is missing; it clears bits [[5y, 5y+5)] of [state[z]] and then
    ORs in the embedded row. *)
Definition setRow (slices : list SliceValue) (row : RowValue) (y z : Z)
  : list SliceValue :=
  vset slices z
    (Z.lor (Z.land (vget slices z) (compl 32 (getSliceFromRow 0x1F y)))
           (embedRow row y)).

End Slices.

(** Modelled from the spec: the body of [getSliceValue] is missing; it
    embeds the five rows and ORs them bitwise. *)
Definition getSliceValue (row0 row1 row2 row3 row4 : RowValue) : SliceValue :=
  Z.lor (Z.lor (Z.lor (Z.lor (getSliceFromRow row0 0) (getSliceFromRow row1 1))
                      (getSliceFromRow row2 2))
               (getSliceFromRow row3 3))
        (getSliceFromRow row4 4).

(** ** The state as a vector of lanes *)

Module Lanes.

(** Position of lane (x,y) in the vector of 25 lanes. *)
Definition index (x y : Z) : Z := x + 5 * y.

(** Bit [z] of a lane: [(lane >> z) & 1]. *)
Definition laneBit (lane : LaneValue) (z : Z) : bool :=
  negb (Z.land (shr lane z) 1 =? 0).

(** Modelled from the spec: the body of [getRow(const vector<LaneValue>&,
    y, z)] is missing; it gathers bit [z] of lane (x,y) for x = 0..4 into a
    5-bit value. *)
Definition getRow (lanes : list LaneValue) (y z : Z) : RowValue :=
  foldl (fun result x =>
           if laneBit (vget lanes (index x y)) z
           then Z.lor result (Z.shiftl 1 x)
           else result)
        0 coordinates.

(** One step of the scatter: bit [x] of [row] goes to bit [z] of lane
    (x,y), the other bits of that lane are kept. *)
Definition setBit (lanes : list LaneValue) (row : RowValue) (y z x : Z)
  : list LaneValue :=
  if Z.land row (Z.shiftl 1 x) =? 0
  then vset lanes (index x y)
         (Z.land (vget lanes (index x y)) (compl laneBits (shl laneBits 1 z)))
  else vset lanes (index x y)
         (Z.lor (vget lanes (index x y)) (shl laneBits 1 z)).

(** Modelled from the spec: the body of [setRow(vector<LaneValue>&, row,
    y, z)] is missing; it scatters bit x of the row into bit [z] of lane
    (x,y) for each x and leaves all other bits of those lanes untouched. *)
Definition setRow (lanes : list LaneValue) (row : RowValue) (y z : Z)
  : list LaneValue :=
  foldl (fun ls x => setBit ls row y z x) lanes coordinates.

End Lanes.

(** Modelled from the spec: the body of [getSlice] is missing; it gathers
    bit [z] across all 25 lanes, as the row gather does for each y, each row
    embedded at its place in the slice. *)
Definition getSlice (lanes : list LaneValue) (z : Z) : SliceValue :=
  foldl (fun slice y => Z.lor slice (getSliceFromRow (Lanes.getRow lanes y z) y))
        0 coordinates.

(** Modelled from the spec: the body of [setSlice] is missing; it scatters
    bit [z] across all 25 lanes, as the row scatter does for each y. *)
Definition setSlice (lanes : list LaneValue) (slice : SliceValue) (z : Z)
  : list LaneValue :=
  foldl (fun ls y => Lanes.setRow ls (getRowFromSlice slice y) y z)
        lanes coordinates.

(** Modelled from the spec: the body of [fromLanesToSlices] is missing; for
    each z in [[0,w)] and each y it extracts the (y,z) row from the lanes
    and embeds it into slice z of the result. *)
Definition fromLanesToSlices (lanes : list LaneValue) (laneSize : Z)
  : list SliceValue :=
  getSlice lanes <$> seqZ 0 laneSize.

(** Modelled from the spec: the body of [fromSlicesToLanes] is missing; for
    each z and each y it extracts the row from slice z and scatters it into
    the 5 lanes with that y at bit z.  The result is a lane state of its
    own, 25 lanes that start out as zero. *)
Definition fromSlicesToLanes (slices : list SliceValue) : list LaneValue :=
  foldl (fun ls z => setSlice ls (vget slices z) z)
        (replicate 25 0)
        (seqZ 0 (Z.of_nat (length slices))).

(** ** Translations *)

(** Modelled from the spec: the body of [translateRowSafely] is missing; it
    brings [dx] into [[0,5)] by [((dx % 5) + 5) % 5], with the remainder of
    C++ on [int], and hands over to [translateRow]. *)
Definition translateRowSafely (row : RowValue) (dx : Z) : RowValue :=
  translateRow row (Z.rem (Z.rem dx 5 + 5) 5).


(** ** Parity and active rows *)

(** Modelled from the spec: the body of [getParity] is missing; the parity
    is the XOR of the five extracted rows. *)
Definition getParity (slice : SliceValue) : RowValue :=
  foldl (fun p y => Z.lxor p (getRowFromSlice slice y)) 0 coordinates.

(** Modelled from the spec: the body of [getNrActiveRows(const SliceValue&)]
    is missing; it counts the y in [[0,5)] whose extracted row is not
    zero. *)
Definition getNrActiveRows (slice : SliceValue) : Z :=
  foldl (fun n y => if getRowFromSlice slice y =? 0 then n else n + 1)
        0 coordinates.

(** ** Bit-level vocabulary used by the statements *)

(** The bits of [s] outside the field of row [y], that is outside
    [[5y, 5y+5)], are all zero. *)
Definition zeroOutsideRow (s : SliceValue) (y : Z) : Prop :=
  forall i, 0 <= i -> ~ (5 * y <= i < 5 * y + 5) -> Z.testbit s i = false.

(** [r] is [row] rotated cyclically to the left by [dx] inside the 5-bit
    field: bit [x] of [row] is bit [(x + dx) mod 5] of [r], and [r] has no
    bit above bit 4. *)
Definition isRotationOfRow (row dx r : Z) : Prop :=
  0 <= r < 32 /\
  forall x, 0 <= x < 5 -> Z.testbit r ((x + dx) mod 5) = Z.testbit row x.




(** ** Proof automation *)

(** Settles in the goal the comparisons that linear arithmetic decides. *)
Ltac decide_comparisons :=
  repeat match goal with
    | |- context [?a <? ?b] =>
        first [ replace (a <? b) with true by (symmetry; apply Z.ltb_lt; lia)
              | replace (a <? b) with false by (symmetry; apply Z.ltb_ge; lia) ]
    | |- context [?a <=? ?b] =>
        first [ replace (a <=? b) with true by (symmetry; apply Z.leb_le; lia)
              | replace (a <=? b) with false by (symmetry; apply Z.leb_gt; lia) ]
    | |- context [?a =? ?b] =>
        first [ replace (a =? b) with true by (symmetry; apply Z.eqb_eq; lia)
              | replace (a =? b) with false by (symmetry; apply Z.eqb_neq; lia) ]
    end.

(** Range facts used to discharge the side conditions of the bit lemmas. *)
Create HintDb keccak.

(** The five cases of a coordinate. *)
Ltac each_coordinate x :=
  let H := fresh "H" in
  assert (H : x = 0 \/ x = 1 \/ x = 2 \/ x = 3 \/ x = 4) by lia;
  destruct H as [->|[->|[->|[->| ->]]]].

(** ** Elementary facts on the word operations *)

Lemma mask5_ones : 0x1F = Z.ones 5.
Proof. reflexivity. Qed.

Lemma wrap_ones w x : 0 <= w -> wrap w x = Z.land x (Z.ones w).
Proof. intros Hw. unfold wrap. now rewrite Z.land_ones. Qed.

Lemma wrap_small w x : fits w x -> wrap w x = x.
Proof. unfold fits, wrap. intros H. now apply Z.mod_small. Qed.

Lemma wrap_fits w x : 0 <= w -> fits w (wrap w x).
Proof.
  intros Hw. unfold fits, wrap. apply Z.mod_pos_bound. now apply Z.pow_pos_nonneg.
Qed.

Lemma fits_mono w w' x : w <= w' -> fits w x -> fits w' x.
Proof.
  unfold fits. intros Hle [H0 H1]. split; [assumption|].
  eapply Z.lt_le_trans; [eassumption|]. destruct (Z.le_gt_cases 0 w).
  - apply Z.pow_le_mono_r; lia.
  - rewrite Z.pow_neg_r in H1 by lia. lia.
Qed.

Lemma fits_testbit_high w x i : 0 <= w -> fits w x -> w <= i -> Z.testbit x i = false.
Proof.
  intros Hw Hx Hi. rewrite <- (wrap_small w x Hx). unfold wrap.
  apply Z.mod_pow2_bits_high. lia.
Qed.

Lemma land_mask5_bound v : 0 <= Z.land v 0x1F < 32.
Proof.
  rewrite mask5_ones, Z.land_ones by lia. change (2 ^ 5) with 32.
  apply Z.mod_pos_bound. lia.
Qed.

Lemma uint8_land_mask5 v : uint8 (Z.land v 0x1F) = Z.land v 0x1F.
Proof.
  apply wrap_small. pose proof (land_mask5_bound v). unfold fits.
  change (2 ^ 8) with 256. lia.
Qed.

(** ** The row codec *)

Lemma getRowFromSlice_bound slice y : 0 <= getRowFromSlice slice y < 32.
Proof. unfold getRowFromSlice. rewrite uint8_land_mask5. apply land_mask5_bound. Qed.

Lemma getParityFromParities_bound parities z : 0 <= getParityFromParities parities z < 32.
Proof. unfold getParityFromParities. rewrite uint8_land_mask5. apply land_mask5_bound. Qed.

Lemma getSliceFromRow_testbit row y i :
  fits 8 row -> 0 <= y < 5 -> 0 <= i ->
  Z.testbit (getSliceFromRow row y) i = (5 * y <=? i) && (i <? 32) && Z.testbit row (i - 5 * y).
Proof.
  intros Hrow Hy Hi. unfold getSliceFromRow, shl, uint32.
  rewrite (wrap_small 32 row) by (eapply fits_mono; [|eassumption]; lia).
  rewrite (wrap_small 32 (5 * y)) by (unfold fits; change (2 ^ 32) with 4294967296; lia).
  unfold wrap. rewrite Z.testbit_mod_pow2 by lia.
  destruct (Z.ltb_spec i 32), (Z.leb_spec (5 * y) i); cbn [andb];
    rewrite ?andb_false_r; try reflexivity.
  - rewrite Z.shiftl_spec by lia. reflexivity.
  - rewrite Z.shiftl_spec by lia. apply Z.testbit_neg_r. lia.
Qed.

Lemma getRowFromSlice_testbit slice y i :
  0 <= y < 5 -> 0 <= i ->
  Z.testbit (getRowFromSlice slice y) i = (i <? 5) && Z.testbit slice (i + 5 * y).
Proof.
  intros Hy Hi. unfold getRowFromSlice. rewrite uint8_land_mask5.
  unfold shr, uint32.
  rewrite (wrap_small 32 (5 * y)) by (unfold fits; change (2 ^ 32) with 4294967296; lia).
  rewrite mask5_ones, Z.land_spec, Z.shiftr_spec, Z.testbit_ones_nonneg by lia.
  apply andb_comm.
Qed.

Lemma uint32_small n : 0 <= n < 2 ^ 32 -> uint32 n = n.
Proof. intros H. now apply wrap_small. Qed.

Lemma row_testbit_high row i : 0 <= row < 32 -> 5 <= i -> Z.testbit row i = false.
Proof. intros Hrow Hi. apply (fits_testbit_high 5); [lia | exact Hrow | exact Hi]. Qed.

Lemma row_fits8 row : 0 <= row < 32 -> fits 8 row.
Proof. unfold fits. change (2 ^ 8) with 256. lia. Qed.

#[local] Hint Resolve row_fits8 : keccak.

Lemma getRowFromSlice_getSliceFromRow row y :
  0 <= row < 32 -> 0 <= y < 5 -> getRowFromSlice (getSliceFromRow row y) y = row.
Proof.
  intros Hrow Hy. pose proof (getRowFromSlice_bound (getSliceFromRow row y) y) as Hb.
  apply Z.bits_inj'. intros i Hi.
  rewrite getRowFromSlice_testbit, getSliceFromRow_testbit by (auto with keccak; lia).
  replace (i + 5 * y - 5 * y) with i by lia.
  destruct (Z.ltb_spec i 5).
  - decide_comparisons.
    reflexivity.
  - cbn [andb]. symmetry. now apply row_testbit_high.
Qed.

Lemma getSliceFromRow_field row y :
  0 <= row < 32 -> 0 <= y < 5 ->
  zeroOutsideRow (getSliceFromRow row y) y /\
  getRowFromSlice (getSliceFromRow row y) y = row.
Proof.
  intros Hrow Hy. split; [|now apply getRowFromSlice_getSliceFromRow].
  intros i Hi Hout. rewrite getSliceFromRow_testbit by (auto with keccak).
  destruct (Z.leb_spec (5 * y) i); [|reflexivity].
  rewrite row_testbit_high by lia. apply andb_false_r.
Qed.

(** C3 (as stated, refuted): a row byte with bit 5 set is embedded without
    being masked, so the slice built for row 0 carries a bit of row 1. *)
Lemma getSliceFromRow_does_not_mask :
  fits 8 0x20 /\ 0 <= 0 < 5 /\ ~ zeroOutsideRow (getSliceFromRow 0x20 0) 0.
Proof.
  split; [unfold fits; lia|]. split; [lia|].
  intros H. specialize (H 5). cbn in H. assert (true = false) by (apply H; lia).
  discriminate.
Qed.

(** C3 (amended): for a row whose bits 5-7 are zero and y in [[0,5)], the
    slice returned by [getSliceFromRow] is zero outside the bit range
    [[5y, 5y+5)] and holds the row there; the function itself does not
    mask. *)
Theorem getSliceFromRow_zero_outside_row (row y : Z) :
  0 <= row < 32 -> 0 <= y < 5 ->
  zeroOutsideRow (getSliceFromRow row y) y /\
  getRowFromSlice (getSliceFromRow row y) y = row.
Proof. apply getSliceFromRow_field. Qed.

Lemma getSliceFromRow_zero_outside_row_witness :
  zeroOutsideRow (getSliceFromRow 0x1F 4) 4 /\
  getRowFromSlice (getSliceFromRow 0x1F 4) 4 = 0x1F.
Proof. apply (getSliceFromRow_zero_outside_row 0x1F 4); lia. Defined.

(** C9: whatever the slice word and whatever y, [getRowFromSlice] returns
    a value below 32: extraction re-establishes the width of a row even on
    a slice with bits above bit 24. *)
Theorem getRowFromSlice_lt_32 (slice y : Z) : 0 <= getRowFromSlice slice y < 32.
Proof. apply getRowFromSlice_bound. Qed.

(** C10: a parity below 32 stored at any of the slice positions 0..11 of a
    [PackedParities] word is read back unchanged. *)
Theorem getParityFromParities_getParitiesFromParity (p z : Z) :
  0 <= p < 32 -> 0 <= z <= 11 ->
  getParityFromParities (getParitiesFromParity p z) z = p.
Proof.
  intros Hp Hz. unfold getParityFromParities, getParitiesFromParity, shl, shr.
  rewrite uint8_land_mask5, uint32_small by (change (2 ^ 32) with 4294967296; lia).
  unfold uint64. rewrite (wrap_small 64 p)
    by (unfold fits; change (2 ^ 64) with 18446744073709551616; lia).
  unfold wrap. rewrite mask5_ones. apply Z.bits_inj'. intros i Hi.
  rewrite Z.land_spec, Z.shiftr_spec, Z.testbit_mod_pow2, Z.shiftl_spec,
    Z.testbit_ones_nonneg by lia.
  replace (i + 5 * z - 5 * z) with i by lia.
  destruct (Z.ltb_spec i 5).
  - decide_comparisons.
    cbn. apply andb_true_r.
  - rewrite (row_testbit_high p i) by lia. now rewrite andb_false_r.
Qed.

Lemma getParityFromParities_getParitiesFromParity_witness :
  getParityFromParities (getParitiesFromParity 0x1F 11) 11 = 0x1F.
Proof. apply (getParityFromParities_getParitiesFromParity 0x1F 11); lia. Defined.

(** Position 12 is the first one that does not fit: the top bit of the
    parity falls off the 64-bit word. *)
Lemma getParitiesFromParity_position_12 :
  getParityFromParities (getParitiesFromParity 0x1F 12) 12 = 0x0F.
Proof. reflexivity. Qed.

(** ** Rotation of a row *)

Lemma translateRow_0 row : translateRow row 0 = row.
Proof. reflexivity. Qed.

Lemma translateRow_pos row dx :
  0 < dx < 5 ->
  translateRow row dx =
  Z.land (Z.lor (Z.shiftl row dx) (Z.shiftr row (5 - dx))) (Z.ones 5).
Proof.
  intros Hdx. unfold translateRow, shr.
  destruct (Z.eqb_spec dx 0) as [->|_]; [lia|].
  rewrite uint8_land_mask5, uint32_small by (change (2 ^ 32) with 4294967296; lia).
  reflexivity.
Qed.

Lemma translateRow_testbit row dx i :
  0 <= row < 32 -> 0 < dx < 5 -> 0 <= i ->
  Z.testbit (translateRow row dx) i =
  (i <? 5) && (if i <? dx then Z.testbit row (i + 5 - dx) else Z.testbit row (i - dx)).
Proof.
  intros Hrow Hdx Hi. rewrite translateRow_pos by assumption.
  rewrite Z.land_spec, Z.lor_spec, Z.shiftl_spec, Z.shiftr_spec,
    Z.testbit_ones_nonneg by lia.
  rewrite andb_comm. destruct (Z.ltb_spec i 5); cbn [andb]; [|reflexivity].
  destruct (Z.ltb_spec i dx).
  - rewrite (Z.testbit_neg_r row (i - dx)) by lia. cbn [orb].
    f_equal. lia.
  - rewrite (row_testbit_high row (i + (5 - dx))) by lia. apply orb_false_r.
Qed.

(** C5: on a row with bits 5-7 zero and 0 <= dx < 5, [translateRow] is the
    cyclic rotation to the left by dx inside the 5-bit field, and for
    dx = 0 it hands the row back as it is. *)
Theorem translateRow_is_rotation (row dx : Z) :
  0 <= row < 32 -> 0 <= dx < 5 ->
  isRotationOfRow row dx (translateRow row dx) /\ translateRow row 0 = row.
Proof.
  intros Hrow Hdx. split; [|apply translateRow_0].
  destruct (Z.eq_dec dx 0) as [->|Hne].
  - rewrite translateRow_0. split; [exact Hrow|].
    intros x Hx. rewrite Z.add_0_r, Z.mod_small by lia. reflexivity.
  - split.
    + rewrite translateRow_pos by lia. rewrite Z.land_ones by lia.
      change (2 ^ 5) with 32. apply Z.mod_pos_bound. lia.
    + intros x Hx. pose proof (Z.mod_pos_bound (x + dx) 5 ltac:(lia)) as Hm.
      rewrite translateRow_testbit by lia.
      decide_comparisons.
      cbn [andb]. destruct (Z.ltb_spec (x + dx) 5) as [Hlt|Hge].
      * rewrite Z.mod_small by lia.
        decide_comparisons.
        f_equal. lia.
      * replace ((x + dx) mod 5) with (x + dx - 5)
          by (apply Z.mod_unique with (q := 1); lia).
        decide_comparisons.
        f_equal. lia.
Qed.

Lemma translateRow_is_rotation_witness :
  isRotationOfRow 0x13 3 (translateRow 0x13 3) /\ translateRow 0x13 0 = 0x13.
Proof. apply (translateRow_is_rotation 0x13 3); lia. Defined.

(** Normalisation of a signed shift, [((dx % 5) + 5) % 5] with the
    remainder of C++, is the mathematical residue of [dx] modulo 5. *)
Lemma normalise_rem5 dx : Z.rem (Z.rem dx 5 + 5) 5 = dx mod 5.
Proof.
  pose proof (Z.rem_bound_abs dx 5 ltac:(lia)) as Hb.
  change (Z.abs 5) with 5 in Hb.
  pose proof (Z.quot_rem' dx 5) as Hq.
  set (r := Z.rem dx 5) in *. set (q := Z.quot dx 5) in *.
  rewrite Z.rem_mod_nonneg by lia.
  replace (dx mod 5) with ((r + 5 + (q - 1) * 5) mod 5) by (f_equal; lia).
  now rewrite Z.mod_add by lia.
Qed.

(** C7: [translateRowSafely] has period 5 in dx, for every row value and
    every integer dx, negative ones included. *)
Theorem translateRowSafely_periodic (row dx : Z) :
  translateRowSafely row dx = translateRowSafely row (dx + 5).
Proof.
  unfold translateRowSafely. rewrite !normalise_rem5.
  replace (dx + 5) with (dx + 1 * 5) by lia. now rewrite Z.mod_add by lia.
Qed.

(** ** Rows of an assembled slice, parity and active rows *)

Lemma coordinates_unfold : coordinates = [0; 1; 2; 3; 4].
Proof. reflexivity. Qed.

Lemma getRowFromSlice_lor a b y :
  0 <= y < 5 ->
  getRowFromSlice (Z.lor a b) y = Z.lor (getRowFromSlice a y) (getRowFromSlice b y).
Proof.
  intros Hy. apply Z.bits_inj'. intros i Hi.
  rewrite Z.lor_spec, !getRowFromSlice_testbit, Z.lor_spec by lia.
  now rewrite andb_orb_distrib_r.
Qed.

Lemma getRowFromSlice_other_row row y y' :
  0 <= row < 32 -> 0 <= y < 5 -> 0 <= y' < 5 -> y <> y' ->
  getRowFromSlice (getSliceFromRow row y') y = 0.
Proof.
  intros Hrow Hy Hy' Hne. apply Z.bits_inj'. intros i Hi.
  rewrite Z.bits_0, getRowFromSlice_testbit by lia.
  destruct (Z.ltb_spec i 5); [|reflexivity]. cbn [andb].
  destruct (getSliceFromRow_field row y' Hrow Hy') as [Hz _].
  apply Hz; lia.
Qed.

Lemma getRowFromSlice_getSliceValue r0 r1 r2 r3 r4 y :
  0 <= r0 < 32 -> 0 <= r1 < 32 -> 0 <= r2 < 32 -> 0 <= r3 < 32 -> 0 <= r4 < 32 ->
  0 <= y < 5 ->
  getRowFromSlice (getSliceValue r0 r1 r2 r3 r4) y =
  nth (Z.to_nat y) [r0; r1; r2; r3; r4] 0.
Proof.
  intros H0 H1 H2 H3 H4 Hy. unfold getSliceValue.
  rewrite !getRowFromSlice_lor by assumption.
  each_coordinate y;
    rewrite getRowFromSlice_getSliceFromRow by lia;
    rewrite !getRowFromSlice_other_row by lia;
    rewrite ?Z.lor_0_r, ?Z.lor_0_l; reflexivity.
Qed.

(** C4: for five rows, values of 5 bits each, the parity of the slice
    assembled from them by [getSliceValue] is the XOR of the five rows. *)
Theorem getParity_getSliceValue (r0 r1 r2 r3 r4 : Z) :
  0 <= r0 < 32 -> 0 <= r1 < 32 -> 0 <= r2 < 32 -> 0 <= r3 < 32 -> 0 <= r4 < 32 ->
  getParity (getSliceValue r0 r1 r2 r3 r4)
  = Z.lxor (Z.lxor (Z.lxor (Z.lxor r0 r1) r2) r3) r4.
Proof.
  intros H0 H1 H2 H3 H4. unfold getParity. rewrite coordinates_unfold.
  cbn [foldl]. rewrite !getRowFromSlice_getSliceValue by lia.
  rewrite Z.lxor_0_l. reflexivity.
Qed.

Lemma getParity_getSliceValue_witness :
  getParity (getSliceValue 0x1F 0x03 0x11 0x00 0x0A)
  = Z.lxor (Z.lxor (Z.lxor (Z.lxor 0x1F 0x03) 0x11) 0x00) 0x0A.
Proof. apply (getParity_getSliceValue 0x1F 0x03 0x11 0x00 0x0A); lia. Defined.

Lemma count_nonzero_foldl (f : Z -> Z) (l : list Z) (n : Z) :
  foldl (fun n y => if f y =? 0 then n else n + 1) n l
  = n + Z.of_nat (length (filter (fun y => f y <> 0) l)).
Proof.
  revert n. induction l as [|y l IH]; intros n; cbn [foldl].
  - cbn. lia.
  - rewrite IH, filter_cons. destruct (Z.eqb_spec (f y) 0) as [E|E].
    + rewrite decide_False by (intros H; now apply H). reflexivity.
    + rewrite decide_True by assumption. cbn [length]. lia.
Qed.

(** C8: [getNrActiveRows] of a slice word is the number of y in [[0,5)]
    whose row [getRowFromSlice slice y] is not zero. *)
Theorem getNrActiveRows_counts_nonzero_rows (slice : Z) :
  getNrActiveRows slice
  = Z.of_nat (length (filter (fun y => getRowFromSlice slice y <> 0) (seqZ 0 5))).
Proof.
  unfold getNrActiveRows, coordinates, nrRowsAndColumns.
  now rewrite (count_nonzero_foldl (getRowFromSlice slice)).
Qed.

(** The number of active rows is not the Hamming weight: a full row is one
    active row made of five bits. *)
Lemma getNrActiveRows_full_row :
  getNrActiveRows (getSliceValue 0x1F 0 0 0 0) = 1 /\
  getParity (getSliceValue 0x1F 0 0 0 0) = 0x1F /\
  getNrActiveRows 0x1 = 1 /\ getParity 0x1 = 0x1.
Proof. repeat split; reflexivity. Qed.

(** ** Vectors *)

Lemma length_vset v i x : length (vset v i x) = length v.
Proof. unfold vset. apply length_insert. Qed.

Lemma vget_vset_eq v i x :
  0 <= i < Z.of_nat (length v) -> vget (vset v i x) i = x.
Proof.
  intros Hi. unfold vget, vset. rewrite list_lookup_insert_eq by lia. reflexivity.
Qed.

Lemma vget_vset_ne v i j x :
  0 <= i -> 0 <= j -> i <> j -> vget (vset v i x) j = vget v j.
Proof.
  intros Hi Hj Hne. unfold vget, vset. rewrite list_lookup_insert_ne by lia.
  reflexivity.
Qed.

Lemma vget_outside v i : Z.of_nat (length v) <= i -> vget v i = 0.
Proof.
  intros Hi. unfold vget. rewrite lookup_ge_None_2 by lia. reflexivity.
Qed.

Lemma vset_outside v i x : Z.of_nat (length v) <= i -> vset v i x = v.
Proof. intros Hi. unfold vset. apply list_insert_ge. lia. Qed.

(** ** Rows of a state given as slices *)

Lemma compl_testbit w a i :
  0 <= w -> 0 <= i -> Z.testbit (compl w a) i = (i <? w) && negb (Z.testbit a i).
Proof.
  intros Hw Hi. unfold compl, wrap.
  rewrite Z.testbit_mod_pow2, Z.lnot_spec by lia. reflexivity.
Qed.

Lemma mask5_testbit i : 0 <= i -> Z.testbit 0x1F i = (i <? 5).
Proof. intros Hi. rewrite mask5_ones. apply Z.testbit_ones_nonneg; lia. Qed.




(** ** Rows of a state given as lanes *)

Lemma laneBit_testbit lane z : 0 <= z -> Lanes.laneBit lane z = Z.testbit lane z.
Proof.
  intros Hz. unfold Lanes.laneBit, shr.
  change 1 with (Z.ones 1). rewrite Z.land_ones by lia. change (2 ^ 1) with 2.
  rewrite Z.testbit_odd, Zmod_odd.
  now destruct (Z.odd (Z.shiftr lane z)).
Qed.

Lemma bit_of_row_testbit row x :
  0 <= x -> (Z.land row (Z.shiftl 1 x) =? 0) = negb (Z.testbit row x).
Proof.
  intros Hx. rewrite Z.shiftl_1_l. destruct (Z.testbit row x) eqn:E; cbn [negb].
  - apply Z.eqb_neq. intros H.
    assert (Hb : Z.testbit (Z.land row (2 ^ x)) x = true)
      by (rewrite Z.land_spec, Z.pow2_bits_true, E by lia; reflexivity).
    rewrite H, Z.bits_0 in Hb. discriminate.
  - apply Z.eqb_eq. apply Z.bits_inj'. intros i Hi.
    rewrite Z.land_spec, Z.bits_0, Z.pow2_bits_eqb by lia.
    destruct (Z.eqb_spec x i) as [->|_]; [now rewrite E | apply andb_false_r].
Qed.

Lemma one_shifted_testbit x i :
  0 <= x -> 0 <= i -> Z.testbit (Z.shiftl 1 x) i = (x =? i).
Proof. intros Hx Hi. rewrite Z.shiftl_1_l. now apply Z.pow2_bits_eqb. Qed.

(** Gathering bits into a word, one per element of a list of positions. *)
Lemma gather_testbit (b : Z -> bool) (l : list Z) (acc i : Z) :
  0 <= i -> Forall (fun x => 0 <= x) l ->
  Z.testbit (foldl (fun r x => if b x then Z.lor r (Z.shiftl 1 x) else r) acc l) i
  = Z.testbit acc i || (existsb (Z.eqb i) l && b i).
Proof.
  intros Hi Hl. revert acc. induction Hl as [|x l Hx Hl IH]; intros acc; cbn [foldl existsb].
  - now rewrite orb_false_r.
  - rewrite IH. destruct (b x) eqn:Eb.
    + rewrite Z.lor_spec, one_shifted_testbit by assumption.
      rewrite (Z.eqb_sym x i). destruct (Z.eqb_spec i x) as [->|_].
      * rewrite Eb. cbn. now rewrite !orb_true_r.
      * cbn [orb]. now rewrite orb_false_r.
    + destruct (Z.eqb_spec i x) as [->|_]; [|reflexivity].
      rewrite Eb. cbn [orb]. now rewrite !andb_false_r.
Qed.

Lemma Lanes_getRow_testbit lanes y z x :
  0 <= z -> 0 <= x ->
  Z.testbit (Lanes.getRow lanes y z) x
  = (x <? 5) && Z.testbit (vget lanes (Lanes.index x y)) z.
Proof.
  intros Hz Hx. unfold Lanes.getRow.
  rewrite (gather_testbit (fun x => Lanes.laneBit (vget lanes (Lanes.index x y)) z))
    by (try assumption; rewrite coordinates_unfold; repeat constructor; lia).
  rewrite Z.bits_0, laneBit_testbit by assumption. cbn [orb]. f_equal.
  rewrite coordinates_unfold. cbn [existsb].
  destruct (Z.ltb_spec x 5).
  - each_coordinate x; reflexivity.
  - repeat (match goal with |- context [?a =? ?b] =>
              destruct (Z.eqb_spec a b); [lia|] end).
    reflexivity.
Qed.

Lemma Lanes_getRow_bound lanes y z : 0 <= z -> 0 <= Lanes.getRow lanes y z < 32.
Proof.
  intros Hz.
  assert (E : Lanes.getRow lanes y z = Z.land (Lanes.getRow lanes y z) 0x1F).
  { apply Z.bits_inj'. intros i Hi.
    rewrite Z.land_spec, mask5_testbit, Lanes_getRow_testbit by assumption.
    destruct (i <? 5); cbn [andb]; [now rewrite andb_true_r | reflexivity]. }
  rewrite E. apply land_mask5_bound.
Qed.

#[local] Hint Resolve Lanes_getRow_bound : keccak.

Lemma shl_one_testbit z b :
  0 <= z -> 0 <= b ->
  Z.testbit (shl laneBits 1 z) b = (b <? 64) && (z =? b).
Proof.
  intros Hz Hb. unfold shl, wrap, laneBits.
  rewrite Z.testbit_mod_pow2, one_shifted_testbit by lia. reflexivity.
Qed.

Lemma length_setBit lanes row y z x :
  length (Lanes.setBit lanes row y z x) = length lanes.
Proof.
  unfold Lanes.setBit.
  destruct (Z.land row (Z.shiftl 1 x) =? 0); apply length_vset.
Qed.

(** One step of the scatter writes bit [x] of the row at bit [z] of lane
    (x,y) and nothing else, as far as the 64 bits of a lane go. *)
Lemma setBit_testbit lanes row y z x j b :
  0 <= x -> 0 <= z ->
  0 <= Lanes.index x y < Z.of_nat (length lanes) -> 0 <= j -> 0 <= b < 64 ->
  Z.testbit (vget (Lanes.setBit lanes row y z x) j) b
  = if (j =? Lanes.index x y) && (b =? z) then Z.testbit row x
    else Z.testbit (vget lanes j) b.
Proof.
  intros Hx Hz Hidx Hj Hb. unfold Lanes.setBit.
  rewrite bit_of_row_testbit by assumption.
  destruct (Z.eqb_spec j (Lanes.index x y)) as [->|Hne]; cbn [andb].
  - destruct (Z.testbit row x) eqn:Erow; cbn [negb];
      rewrite vget_vset_eq by assumption.
    + rewrite Z.lor_spec, shl_one_testbit by lia.
      decide_comparisons.
      rewrite (Z.eqb_sym z b). cbn [andb].
      destruct (b =? z); [apply orb_true_r | apply orb_false_r].
    + rewrite Z.land_spec, compl_testbit, shl_one_testbit by (unfold laneBits; lia).
      unfold laneBits.
      decide_comparisons.
      rewrite (Z.eqb_sym z b). cbn [andb].
      destruct (b =? z); cbn [negb]; [apply andb_false_r | apply andb_true_r].
  - destruct (Z.testbit row x); cbn [negb]; now rewrite vget_vset_ne by lia.
Qed.

Lemma scatter_testbit row y z (l : list Z) :
  0 <= y < 5 -> 0 <= z ->
  Forall (fun x => 0 <= x < 5) l ->
  forall lanes x' y' b,
    length lanes = 25%nat -> 0 <= x' < 5 -> 0 <= y' < 5 -> 0 <= b < 64 ->
    Z.testbit (vget (foldl (fun ls x => Lanes.setBit ls row y z x) lanes l)
                    (Lanes.index x' y')) b
    = if existsb (Z.eqb x') l && (y' =? y) && (b =? z) then Z.testbit row x'
      else Z.testbit (vget lanes (Lanes.index x' y')) b.
Proof.
  intros Hy Hz Hl. induction Hl as [|x l Hx Hl IH];
    intros lanes x' y' b Hlen Hx' Hy' Hb; cbn [foldl existsb].
  - reflexivity.
  - rewrite IH by (rewrite ?length_setBit; assumption).
    rewrite setBit_testbit by (unfold Lanes.index; lia).
    unfold Lanes.index.
    destruct (Z.eqb_spec x' x) as [->|Hxne]; cbn [orb].
    + destruct (Z.eqb_spec y' y) as [->|Hyne].
      * rewrite Z.eqb_refl. cbn [andb].
        destruct (existsb (Z.eqb x) l); cbn [andb]; now destruct (b =? z).
      * decide_comparisons.
        now rewrite andb_false_r.
    + decide_comparisons.
      reflexivity.
Qed.

Lemma length_scatter row y z (l : list Z) lanes :
  length (foldl (fun ls x => Lanes.setBit ls row y z x) lanes l) = length lanes.
Proof.
  revert lanes. induction l as [|x l IH]; intros lanes; cbn [foldl]; [reflexivity|].
  now rewrite IH, length_setBit.
Qed.

Lemma length_Lanes_setRow lanes row y z :
  length (Lanes.setRow lanes row y z) = length lanes.
Proof. apply length_scatter. Qed.

Lemma coordinates_range : Forall (fun x => 0 <= x < 5) coordinates.
Proof. rewrite coordinates_unfold. repeat constructor; lia. Qed.

#[local] Hint Resolve coordinates_range : keccak.

Lemma coordinates_member x : 0 <= x < 5 -> existsb (Z.eqb x) coordinates = true.
Proof.
  intros Hx. rewrite coordinates_unfold.
  each_coordinate x; reflexivity.
Qed.

Lemma Lanes_setRow_testbit lanes row y z x' y' b :
  length lanes = 25%nat -> 0 <= y < 5 -> 0 <= z ->
  0 <= x' < 5 -> 0 <= y' < 5 -> 0 <= b < 64 ->
  Z.testbit (vget (Lanes.setRow lanes row y z) (Lanes.index x' y')) b
  = if (y' =? y) && (b =? z) then Z.testbit row x'
    else Z.testbit (vget lanes (Lanes.index x' y')) b.
Proof.
  intros Hlen Hy Hz Hx' Hy' Hb. unfold Lanes.setRow.
  rewrite scatter_testbit by (auto with keccak).
  now rewrite coordinates_member by assumption.
Qed.




(** ** Translation along z *)

Lemma vector_ext (u v : list Z) :
  length u = length v ->
  (forall j, 0 <= j < Z.of_nat (length v) -> vget u j = vget v j) ->
  u = v.
Proof.
  intros Hlen H. apply (list_eq_same_length u v (length v)); [reflexivity|assumption|].
  intros i x y Hi Hx Hy. specialize (H (Z.of_nat i) ltac:(lia)).
  unfold vget in H. rewrite Nat2Z.id, Hx, Hy in H. exact H.
Qed.


Section MoveSlices.

(** The state before the translation, the number [w] of its slices and the
    shift [d] the loop works with. *)
Variable state : list Z.
Variables w d : Z.
Hypothesis w_slices : w = Z.of_nat (length state).



End MoveSlices.







(** ** From lanes to slices and back *)

Lemma getSlice_getSliceValue lanes z :
  getSlice lanes z
  = getSliceValue (Lanes.getRow lanes 0 z) (Lanes.getRow lanes 1 z)
                  (Lanes.getRow lanes 2 z) (Lanes.getRow lanes 3 z)
                  (Lanes.getRow lanes 4 z).
Proof.
  unfold getSlice, getSliceValue. rewrite coordinates_unfold. cbn [foldl].
  now rewrite Z.lor_0_l.
Qed.

Lemma getRowFromSlice_getSlice lanes y z :
  0 <= y < 5 -> 0 <= z ->
  getRowFromSlice (getSlice lanes z) y = Lanes.getRow lanes y z.
Proof.
  intros Hy Hz. rewrite getSlice_getSliceValue.
  rewrite getRowFromSlice_getSliceValue by (auto with keccak).
  each_coordinate y; reflexivity.
Qed.

Lemma length_setSlice lanes slice z : length (setSlice lanes slice z) = length lanes.
Proof.
  unfold setSlice. generalize coordinates. intros l. revert lanes.
  induction l as [|y l IH]; intros lanes; cbn [foldl]; [reflexivity|].
  now rewrite IH, length_Lanes_setRow.
Qed.

Lemma scatter_rows_testbit slice z (l : list Z) :
  0 <= z -> Forall (fun y => 0 <= y < 5) l ->
  forall lanes x' y' b,
    length lanes = 25%nat -> 0 <= x' < 5 -> 0 <= y' < 5 -> 0 <= b < 64 ->
    Z.testbit
      (vget (foldl (fun ls y => Lanes.setRow ls (getRowFromSlice slice y) y z) lanes l)
            (Lanes.index x' y')) b
    = if existsb (Z.eqb y') l && (b =? z)
      then Z.testbit (getRowFromSlice slice y') x'
      else Z.testbit (vget lanes (Lanes.index x' y')) b.
Proof.
  intros Hz Hl. induction Hl as [|y l Hy Hl IH];
    intros lanes x' y' b Hlen Hx' Hy' Hb; cbn [foldl existsb].
  - reflexivity.
  - rewrite IH by (rewrite ?length_Lanes_setRow; assumption).
    rewrite Lanes_setRow_testbit by assumption.
    destruct (Z.eqb_spec y' y) as [->|Hne]; cbn [orb andb]; [|reflexivity].
    destruct (b =? z); [|now rewrite andb_false_r].
    now destruct (existsb (Z.eqb y) l).
Qed.

Lemma setSlice_testbit lanes slice z x' y' b :
  length lanes = 25%nat -> 0 <= z ->
  0 <= x' < 5 -> 0 <= y' < 5 -> 0 <= b < 64 ->
  Z.testbit (vget (setSlice lanes slice z) (Lanes.index x' y')) b
  = if b =? z then Z.testbit (getRowFromSlice slice y') x'
    else Z.testbit (vget lanes (Lanes.index x' y')) b.
Proof.
  intros Hlen Hz Hx' Hy' Hb. unfold setSlice.
  rewrite scatter_rows_testbit by (auto with keccak).
  now rewrite coordinates_member by assumption.
Qed.

Lemma scatter_slices_testbit slices (l : list Z) :
  Forall (fun z => 0 <= z) l ->
  forall lanes x' y' b,
    length lanes = 25%nat -> 0 <= x' < 5 -> 0 <= y' < 5 -> 0 <= b < 64 ->
    Z.testbit
      (vget (foldl (fun ls z => setSlice ls (vget slices z) z) lanes l)
            (Lanes.index x' y')) b
    = if decide (b ∈ l)
      then Z.testbit (getRowFromSlice (vget slices b) y') x'
      else Z.testbit (vget lanes (Lanes.index x' y')) b.
Proof.
  intros Hl. induction Hl as [|z l Hz Hl IH];
    intros lanes x' y' b Hlen Hx' Hy' Hb; cbn [foldl].
  - rewrite decide_False by apply not_elem_of_nil. reflexivity.
  - rewrite IH by (rewrite ?length_setSlice; assumption).
    rewrite setSlice_testbit by assumption.
    destruct (decide (b ∈ l)) as [Hin|Hnin].
    + rewrite decide_True by (apply elem_of_cons; now right). reflexivity.
    + destruct (Z.eqb_spec b z) as [->|Hne].
      * rewrite decide_True by (apply elem_of_cons; now left). reflexivity.
      * rewrite decide_False; [reflexivity|].
        intros Hin. apply elem_of_cons in Hin as [Hin|Hin]; contradiction.
Qed.

Lemma foldl_preserves {A B : Type} (P : A -> Prop) (f : A -> B -> A) (l : list B) :
  (forall a b, P a -> P (f a b)) -> forall a, P a -> P (foldl f a l).
Proof.
  intros Hf. induction l as [|b l IH]; intros a Ha; cbn [foldl]; auto.
Qed.

Lemma fits_of_high_bits w x :
  0 <= w -> (forall i, w <= i -> Z.testbit x i = false) -> fits w x.
Proof.
  intros Hw Hhigh. assert (E : x = wrap w x).
  { unfold wrap. apply Z.bits_inj'. intros i Hi.
    rewrite Z.testbit_mod_pow2 by assumption.
    destruct (Z.ltb_spec i w); [reflexivity|]. now apply Hhigh. }
  rewrite E. now apply wrap_fits.
Qed.

Lemma vget_fits w v i : 0 <= w -> Forall (fits w) v -> fits w (vget v i).
Proof.
  intros Hw Hv. unfold vget. destruct (v !! Z.to_nat i) as [x|] eqn:E; cbn.
  - eapply Forall_lookup_1; eassumption.
  - unfold fits. split; [lia|]. now apply Z.pow_pos_nonneg.
Qed.

Lemma setBit_fits lanes row y z x :
  Forall (fits laneBits) lanes -> Forall (fits laneBits) (Lanes.setBit lanes row y z x).
Proof.
  intros Hl. pose proof (vget_fits laneBits lanes (Lanes.index x y) ltac:(unfold laneBits; lia) Hl) as Hold.
  unfold Lanes.setBit, vset.
  destruct (Z.land row (Z.shiftl 1 x) =? 0); apply Forall_insert; try assumption;
    apply fits_of_high_bits; try (unfold laneBits; lia); intros i Hi.
  - rewrite Z.land_spec, compl_testbit by (unfold laneBits in *; lia).
    decide_comparisons.
    apply andb_false_r.
  - rewrite Z.lor_spec. unfold shl, wrap.
    rewrite Z.testbit_mod_pow2 by (unfold laneBits; lia).
    decide_comparisons.
    rewrite (fits_testbit_high laneBits _ i ltac:(unfold laneBits; lia) Hold Hi).
    reflexivity.
Qed.

Lemma setSlice_fits lanes slice z :
  Forall (fits laneBits) lanes -> Forall (fits laneBits) (setSlice lanes slice z).
Proof.
  unfold setSlice. apply foldl_preserves. intros ls y Hls.
  unfold Lanes.setRow. revert Hls. apply foldl_preserves.
  intros ls' x. apply setBit_fits.
Qed.

Lemma fromSlicesToLanes_fits slices : Forall (fits laneBits) (fromSlicesToLanes slices).
Proof.
  unfold fromSlicesToLanes. apply foldl_preserves.
  - intros ls z. apply setSlice_fits.
  - apply Forall_replicate. unfold fits, laneBits. split; [lia|]. now apply Z.pow_pos_nonneg.
Qed.

Lemma length_fromSlicesToLanes slices : length (fromSlicesToLanes slices) = 25%nat.
Proof.
  unfold fromSlicesToLanes.
  apply (foldl_preserves (fun ls => length ls = 25%nat)).
  - intros ls z Hls. now rewrite length_setSlice.
  - apply length_replicate.
Qed.

Lemma length_fromLanesToSlices lanes w :
  Z.of_nat (length (fromLanesToSlices lanes w)) = Z.max 0 w.
Proof. unfold fromLanesToSlices. rewrite length_fmap, length_seqZ. lia. Qed.

Lemma vget_fromLanesToSlices lanes w z :
  0 <= z < w -> vget (fromLanesToSlices lanes w) z = getSlice lanes z.
Proof.
  intros Hz. unfold vget, fromLanesToSlices.
  rewrite list_lookup_fmap, (lookup_seqZ_lt 0 w (Z.to_nat z)) by lia. cbn.
  f_equal. lia.
Qed.

(** Bit [b] of lane (x,y) after the conversion back from slices is bit
    (x,y) of slice [b], for the slices there are; the bits beyond them are
    zero. *)
Lemma fromSlicesToLanes_testbit slices x y b :
  0 <= x < 5 -> 0 <= y < 5 -> 0 <= b < 64 ->
  Z.testbit (vget (fromSlicesToLanes slices) (Lanes.index x y)) b
  = (b <? Z.of_nat (length slices)) && Z.testbit (getRowFromSlice (vget slices b) y) x.
Proof.
  intros Hx Hy Hb. unfold fromSlicesToLanes.
  rewrite scatter_slices_testbit; try assumption.
  - destruct (Z.ltb_spec b (Z.of_nat (length slices))).
    + rewrite decide_True by (apply elem_of_seqZ; lia). reflexivity.
    + rewrite decide_False by (rewrite elem_of_seqZ; lia).
      unfold vget. destruct (replicate 25 0 !! Z.to_nat (Lanes.index x y)) as [v|] eqn:E; cbn.
      * apply lookup_replicate in E as [-> _]. apply Z.bits_0.
      * apply Z.bits_0.
  - apply Forall_forall. intros z Hz. apply elem_of_seqZ in Hz. lia.
  - apply length_replicate.
Qed.

Lemma lane_position j :
  0 <= j < 25 -> 0 <= j mod 5 < 5 /\ 0 <= j / 5 < 5 /\ Lanes.index (j mod 5) (j / 5) = j.
Proof.
  intros Hj. unfold Lanes.index. pose proof (Z.div_mod j 5 ltac:(lia)) as Hdm.
  pose proof (Z.mod_pos_bound j 5 ltac:(lia)) as Hm. lia.
Qed.

(** What the two conversions do in a row, on any 25 lanes and for any lane
    width: each lane comes back reduced to its [w] low bits, and to the 64
    bits of a lane at most. *)
Lemma fromSlicesToLanes_fromLanesToSlices_wraps (lanes : list Z) (w : Z) :
  length lanes = 25%nat -> 0 <= w ->
  fromSlicesToLanes (fromLanesToSlices lanes w) = wrap (Z.min w laneBits) <$> lanes.
Proof.
  intros Hlen Hw. unfold laneBits.
  apply vector_ext; [now rewrite length_fromSlicesToLanes, length_fmap|].
  rewrite length_fmap, Hlen. intros j Hj.
  destruct (lane_position j ltac:(lia)) as (Hx & Hy & Hidx).
  pose proof (vget_fits laneBits _ j ltac:(unfold laneBits; lia)
                (fromSlicesToLanes_fits (fromLanesToSlices lanes w))) as Hback.
  assert (Hwrap : vget (wrap (Z.min w 64) <$> lanes) j = wrap (Z.min w 64) (vget lanes j)).
  { unfold vget. rewrite list_lookup_fmap.
    destruct (lanes !! Z.to_nat j) as [v|] eqn:E; [reflexivity|].
    apply lookup_ge_None_1 in E. lia. }
  rewrite Hwrap. unfold wrap. apply Z.bits_inj'. intros b Hb.
  rewrite Z.testbit_mod_pow2 by lia.
  destruct (Z.ltb_spec b 64) as [Hb64|Hb64].
  - rewrite <- Hidx at 1.
    rewrite fromSlicesToLanes_testbit by lia.
    rewrite length_fromLanesToSlices.
    replace (Z.max 0 w) with w by lia.
    destruct (Z.ltb_spec b w) as [Hlt|Hge]; decide_comparisons; cbn [andb];
      [|reflexivity].
    rewrite vget_fromLanesToSlices by lia.
    rewrite getRowFromSlice_getSlice, Lanes_getRow_testbit by lia.
    decide_comparisons. cbn [andb]. now rewrite Hidx.
  - decide_comparisons. cbn [andb].
    apply (fits_testbit_high laneBits); [unfold laneBits; lia|assumption|].
    unfold laneBits. lia.
Qed.

Lemma wrap_lanes_fit (lanes : list Z) (w : Z) :
  Forall (fits w) lanes -> wrap w <$> lanes = lanes.
Proof.
  intros Hfit. induction Hfit as [|x l Hx Hl IH]; cbn [fmap list_fmap]; [reflexivity|].
  now rewrite IH, wrap_small.
Qed.

(** C1: for every state of 25 lanes, 64-bit values, and every lane width w
    of which it is a state, that is with no bit of a lane at position w or
    above, [fromLanesToSlices] with w followed by [fromSlicesToLanes] gives
    the lanes back. *)
Theorem fromSlicesToLanes_fromLanesToSlices (lanes : list LaneValue) (w : Z) :
  length lanes = 25%nat -> 0 <= w ->
  Forall (fits laneBits) lanes -> Forall (fits w) lanes ->
  fromSlicesToLanes (fromLanesToSlices lanes w) = lanes.
Proof.
  intros Hlen Hw Hword Hfit.
  rewrite fromSlicesToLanes_fromLanesToSlices_wraps by assumption.
  apply wrap_lanes_fit.
  destruct (Z.min_spec w laneBits) as [[_ ->]|[_ ->]]; assumption.
Qed.

Lemma fromSlicesToLanes_fromLanesToSlices_witness :
  fromSlicesToLanes (fromLanesToSlices (seqZ 231 25) 8) = seqZ 231 25.
Proof.
  apply (fromSlicesToLanes_fromLanesToSlices (seqZ 231 25) 8).
  - reflexivity.
  - lia.
  - apply Forall_forall. intros x Hx. apply elem_of_seqZ in Hx.
    unfold fits, laneBits. change (2 ^ 64) with 18446744073709551616. lia.
  - apply Forall_forall. intros x Hx. apply elem_of_seqZ in Hx.
    unfold fits. change (2 ^ 8) with 256. lia.
Defined.

(** * Further properties of the inline functions of the header *)

(** ** Embedding and extracting rows *)

Lemma byte_testbit_high row i : fits 8 row -> 8 <= i -> Z.testbit row i = false.
Proof. intros Hrow Hi. apply (fits_testbit_high 8); [lia | exact Hrow | exact Hi]. Qed.

(** X1: what the rows of [getSliceFromRow row y] are, for any byte: row y
    is the byte reduced to 5 bits, row y+1 receives bits 5-7 of the byte,
    and all other rows are zero. *)
Theorem getRowFromSlice_getSliceFromRow_byte (row y y' : Z) :
  fits 8 row -> 0 <= y < 5 -> 0 <= y' < 5 ->
  getRowFromSlice (getSliceFromRow row y) y'
  = if y' =? y then Z.land row 0x1F
    else if y' =? y + 1 then Z.shiftr row 5
    else 0.
Proof.
  intros Hrow Hy Hy'.
  assert (Hbit : forall i, 0 <= i ->
            Z.testbit (getRowFromSlice (getSliceFromRow row y) y') i
            = (i <? 5) && (5 * y <=? i + 5 * y') && Z.testbit row (i + 5 * y' - 5 * y)).
  { intros i Hi. rewrite getRowFromSlice_testbit, getSliceFromRow_testbit by (assumption || lia).
    destruct (Z.ltb_spec i 5); [|reflexivity]. cbn [andb].
    replace (i + 5 * y' <? 32) with true by (symmetry; apply Z.ltb_lt; lia).
    now rewrite andb_true_r. }
  apply Z.bits_inj'. intros i Hi. rewrite Hbit by assumption.
  destruct (Z.eqb_spec y' y) as [->|Hne].
  - rewrite Z.land_spec, mask5_testbit by assumption.
    replace (i + 5 * y - 5 * y) with i by lia. decide_comparisons.
    rewrite andb_true_r. apply andb_comm.
  - destruct (Z.eqb_spec y' (y + 1)) as [->|Hne'].
    + rewrite Z.shiftr_spec by assumption.
      replace (i + 5 * (y + 1) - 5 * y) with (i + 5) by lia.
      destruct (Z.ltb_spec i 5); cbn [andb].
      * decide_comparisons. reflexivity.
      * symmetry. apply byte_testbit_high; [assumption|lia].
    + rewrite Z.bits_0. destruct (Z.ltb_spec i 5); [cbn [andb]|reflexivity].
      destruct (Z.leb_spec (5 * y) (i + 5 * y')); [cbn [andb]|reflexivity].
      apply byte_testbit_high; [assumption|lia].
Qed.

Lemma getRowFromSlice_getSliceFromRow_byte_witness :
  getRowFromSlice (getSliceFromRow 0xB5 2) 3
  = if 3 =? 2 then Z.land 0xB5 0x1F else if 3 =? 2 + 1 then Z.shiftr 0xB5 5 else 0.
Proof.
  apply (getRowFromSlice_getSliceFromRow_byte 0xB5 2 3); [unfold fits; lia | lia | lia].
Defined.

Lemma getSliceFromRow_value_aux row y :
  fits 8 row -> 0 <= y < 5 -> getSliceFromRow row y = row * 32 ^ y.
Proof.
  intros Hrow Hy. unfold getSliceFromRow, shl, uint32.
  rewrite (wrap_small 32 row) by (eapply fits_mono; [|eassumption]; lia).
  rewrite (wrap_small 32 (5 * y)) by (unfold fits; change (2 ^ 32) with 4294967296; lia).
  rewrite Z.shiftl_mul_pow2 by lia.
  replace (2 ^ (5 * y)) with (32 ^ y) by (change 32 with (2 ^ 5); rewrite <- Z.pow_mul_r; [reflexivity|lia..]).
  apply wrap_small. unfold fits in *. change (2 ^ 8) with 256 in Hrow.
  each_coordinate y; cbn; lia.
Qed.

(** X2: the value of [getSliceFromRow row y] is the row times 32^y, as the
    comment on [SliceValue] puts it, for every byte and y in [[0,5)]. *)
Theorem getSliceFromRow_value (row y : Z) :
  fits 8 row -> 0 <= y < 5 -> getSliceFromRow row y = row * 32 ^ y.
Proof. apply getSliceFromRow_value_aux. Qed.

Lemma getSliceFromRow_value_witness : getSliceFromRow 0x1F 4 = 0x1F * 32 ^ 4.
Proof. apply (getSliceFromRow_value 0x1F 4); [unfold fits; lia | lia]. Defined.

(** X3: a row of 5 bits embedded at y in [[0,5)] is a slice value within
    [maxSliceValue]. *)
Theorem getSliceFromRow_le_maxSliceValue (row y : Z) :
  0 <= row < 32 -> 0 <= y < 5 -> 0 <= getSliceFromRow row y <= maxSliceValue.
Proof.
  intros Hrow Hy. rewrite getSliceFromRow_value_aux by (auto with keccak).
  unfold maxSliceValue. each_coordinate y; cbn; lia.
Qed.

Lemma getSliceFromRow_le_maxSliceValue_witness :
  0 <= getSliceFromRow 0x1F 4 <= maxSliceValue.
Proof. apply (getSliceFromRow_le_maxSliceValue 0x1F 4); lia. Defined.

(** X4: [getRowFromSlice slice y] is the digit of rank y of the slice
    written in base 32, for y in [[0,5)]. *)
Theorem getRowFromSlice_value (slice y : Z) :
  0 <= y < 5 -> getRowFromSlice slice y = (slice / 32 ^ y) mod 32.
Proof.
  intros Hy. unfold getRowFromSlice, shr. rewrite uint8_land_mask5.
  rewrite uint32_small by (change (2 ^ 32) with 4294967296; lia).
  rewrite mask5_ones, Z.land_ones, Z.shiftr_div_pow2 by lia.
  replace (2 ^ (5 * y)) with (32 ^ y) by (change 32 with (2 ^ 5); rewrite <- Z.pow_mul_r; [reflexivity|lia..]).
  reflexivity.
Qed.

Lemma getRowFromSlice_value_witness :
  getRowFromSlice 0x1ABCDEF 3 = (0x1ABCDEF / 32 ^ 3) mod 32.
Proof. apply (getRowFromSlice_value 0x1ABCDEF 3); lia. Defined.

Lemma maxSliceValue_testbit i : 0 <= i -> Z.testbit maxSliceValue i = (i <? 25).
Proof.
  intros Hi. change maxSliceValue with (Z.ones 25). apply Z.testbit_ones_nonneg; lia.
Qed.

(** The bits of an extracted row put back at their place: the slice
    restricted to the field of row y. *)
Lemma embed_extracted_testbit slice y i :
  0 <= y < 5 -> 0 <= i ->
  Z.testbit (getSliceFromRow (getRowFromSlice slice y) y) i
  = (5 * y <=? i) && (i <? 5 * y + 5) && Z.testbit slice i.
Proof.
  intros Hy Hi. pose proof (getRowFromSlice_bound slice y) as Hb.
  rewrite getSliceFromRow_testbit by (auto with keccak).
  destruct (Z.leb_spec (5 * y) i); [cbn [andb]|reflexivity].
  rewrite getRowFromSlice_testbit by lia.
  replace (i - 5 * y + 5 * y) with i by lia.
  destruct (Z.ltb_spec i (5 * y + 5)); decide_comparisons; cbn [andb];
    rewrite ?andb_false_r; reflexivity.
Qed.

Lemma reassembled_rows_aux slice :
  Z.lor (Z.lor (Z.lor (Z.lor (getSliceFromRow (getRowFromSlice slice 0) 0)
                             (getSliceFromRow (getRowFromSlice slice 1) 1))
                      (getSliceFromRow (getRowFromSlice slice 2) 2))
               (getSliceFromRow (getRowFromSlice slice 3) 3))
        (getSliceFromRow (getRowFromSlice slice 4) 4)
  = Z.land slice maxSliceValue.
Proof.
  apply Z.bits_inj'. intros i Hi.
  rewrite !Z.lor_spec, !embed_extracted_testbit, Z.land_spec, maxSliceValue_testbit by lia.
  destruct (Z.testbit slice i); rewrite ?andb_false_r; [|reflexivity].
  rewrite !andb_true_r. cbn [andb].
  destruct (Z.ltb_spec i 25).
  - assert (Hc : i < 5 \/ 5 <= i < 10 \/ 10 <= i < 15 \/ 15 <= i < 20 \/ 20 <= i) by lia.
    destruct Hc as [?|[?|[?|[?|?]]]]; decide_comparisons; reflexivity.
  - decide_comparisons. reflexivity.
Qed.

(** X5: the five rows extracted from any slice word, embedded again and
    ORed together, give the word reduced to its 25 low bits: extraction
    never sees the bits above bit 24. *)
Theorem rows_reassembled_land_maxSliceValue (slice : Z) :
  Z.lor (Z.lor (Z.lor (Z.lor (getSliceFromRow (getRowFromSlice slice 0) 0)
                             (getSliceFromRow (getRowFromSlice slice 1) 1))
                      (getSliceFromRow (getRowFromSlice slice 2) 2))
               (getSliceFromRow (getRowFromSlice slice 3) 3))
        (getSliceFromRow (getRowFromSlice slice 4) 4)
  = Z.land slice maxSliceValue.
Proof. apply reassembled_rows_aux. Qed.

(** X6: a slice within [maxSliceValue] is given back by its five rows. *)
Theorem rows_reassembled (slice : Z) :
  0 <= slice <= maxSliceValue ->
  Z.lor (Z.lor (Z.lor (Z.lor (getSliceFromRow (getRowFromSlice slice 0) 0)
                             (getSliceFromRow (getRowFromSlice slice 1) 1))
                      (getSliceFromRow (getRowFromSlice slice 2) 2))
               (getSliceFromRow (getRowFromSlice slice 3) 3))
        (getSliceFromRow (getRowFromSlice slice 4) 4)
  = slice.
Proof.
  intros Hs. rewrite reassembled_rows_aux.
  change maxSliceValue with (Z.ones 25). rewrite Z.land_ones by lia.
  apply Z.mod_small. unfold maxSliceValue in Hs. change (2 ^ 25) with 33554432. lia.
Qed.

Lemma rows_reassembled_witness :
  Z.lor (Z.lor (Z.lor (Z.lor (getSliceFromRow (getRowFromSlice 0x1ABCDEF 0) 0)
                             (getSliceFromRow (getRowFromSlice 0x1ABCDEF 1) 1))
                      (getSliceFromRow (getRowFromSlice 0x1ABCDEF 2) 2))
               (getSliceFromRow (getRowFromSlice 0x1ABCDEF 3) 3))
        (getSliceFromRow (getRowFromSlice 0x1ABCDEF 4) 4)
  = 0x1ABCDEF.
Proof. apply (rows_reassembled 0x1ABCDEF). unfold maxSliceValue. lia. Defined.

(** X7: two slices within [maxSliceValue] that have the same five rows are
    the same slice. *)
Theorem slices_equal_by_rows (s t : Z) :
  0 <= s <= maxSliceValue -> 0 <= t <= maxSliceValue ->
  (forall y, 0 <= y < 5 -> getRowFromSlice s y = getRowFromSlice t y) ->
  s = t.
Proof.
  intros Hs Ht Hrows.
  assert (Hland : forall u, 0 <= u <= maxSliceValue -> Z.land u maxSliceValue = u).
  { intros u Hu. change maxSliceValue with (Z.ones 25). rewrite Z.land_ones by lia.
    apply Z.mod_small. unfold maxSliceValue in Hu. change (2 ^ 25) with 33554432. lia. }
  rewrite <- (Hland s Hs), <- (Hland t Ht), <- !reassembled_rows_aux.
  now rewrite !Hrows by lia.
Qed.

Lemma slices_equal_by_rows_witness : 0x155 = Z.land 0x155 maxSliceValue.
Proof.
  apply (slices_equal_by_rows 0x155 (Z.land 0x155 maxSliceValue));
    [unfold maxSliceValue; lia | vm_compute; intuition congruence| ].
  intros y Hy. reflexivity.
Defined.

(** X8: for y in [[0,5)] the bits of a slice word above bit 24 have no
    effect on the extracted row. *)
Theorem getRowFromSlice_land_maxSliceValue (slice y : Z) :
  0 <= y < 5 ->
  getRowFromSlice (Z.land slice maxSliceValue) y = getRowFromSlice slice y.
Proof.
  intros Hy. apply Z.bits_inj'. intros i Hi.
  rewrite !getRowFromSlice_testbit, Z.land_spec, maxSliceValue_testbit by lia.
  destruct (Z.ltb_spec i 5); [cbn [andb]|reflexivity].
  decide_comparisons. apply andb_true_r.
Qed.

Lemma getRowFromSlice_land_maxSliceValue_witness :
  getRowFromSlice (Z.land 0xFFFFFFFF maxSliceValue) 4 = getRowFromSlice 0xFFFFFFFF 4.
Proof. apply (getRowFromSlice_land_maxSliceValue 0xFFFFFFFF 4); lia. Defined.

(** X9: extraction is linear over XOR: the row of the XOR of two slices is
    the XOR of their rows. *)
Theorem getRowFromSlice_lxor (s t y : Z) :
  0 <= y < 5 ->
  getRowFromSlice (Z.lxor s t) y = Z.lxor (getRowFromSlice s y) (getRowFromSlice t y).
Proof.
  intros Hy. apply Z.bits_inj'. intros i Hi.
  rewrite Z.lxor_spec, !getRowFromSlice_testbit, Z.lxor_spec by lia.
  now destruct (i <? 5).
Qed.

Lemma getRowFromSlice_lxor_witness :
  getRowFromSlice (Z.lxor 0x1ABCDEF 0x0F0F0F0) 2
  = Z.lxor (getRowFromSlice 0x1ABCDEF 2) (getRowFromSlice 0x0F0F0F0 2).
Proof. apply (getRowFromSlice_lxor 0x1ABCDEF 0x0F0F0F0 2); lia. Defined.

(** X10: rows embedded at two different places have no bit in common, so
    that ORing, XORing and adding them all give the same slice. *)
Theorem getSliceFromRow_disjoint (a b y y' : Z) :
  0 <= a < 32 -> 0 <= b < 32 -> 0 <= y < 5 -> 0 <= y' < 5 -> y <> y' ->
  Z.land (getSliceFromRow a y) (getSliceFromRow b y') = 0 /\
  Z.lor (getSliceFromRow a y) (getSliceFromRow b y')
  = getSliceFromRow a y + getSliceFromRow b y' /\
  Z.lxor (getSliceFromRow a y) (getSliceFromRow b y')
  = getSliceFromRow a y + getSliceFromRow b y'.
Proof.
  intros Ha Hb Hy Hy' Hne.
  assert (Hdisj : Z.land (getSliceFromRow a y) (getSliceFromRow b y') = 0).
  { apply Z.bits_inj'. intros i Hi. rewrite Z.land_spec, Z.bits_0.
    destruct (getSliceFromRow_field a y Ha Hy) as [Hza _].
    destruct (getSliceFromRow_field b y' Hb Hy') as [Hzb _].
    destruct (Z_le_dec (5 * y) i) as [H1|H1];
      [destruct (Z_lt_dec i (5 * y + 5)) as [H2|H2]|].
    - rewrite (Hzb i) by lia. apply andb_false_r.
    - rewrite (Hza i) by lia. reflexivity.
    - rewrite (Hza i) by lia. reflexivity. }
  split; [exact Hdisj|]. split.
  - rewrite <- Z.lxor_lor by exact Hdisj. symmetry. now apply Z.add_nocarry_lxor.
  - symmetry. now apply Z.add_nocarry_lxor.
Qed.

Lemma getSliceFromRow_disjoint_witness :
  Z.land (getSliceFromRow 0x1F 1) (getSliceFromRow 0x1F 2) = 0 /\
  Z.lor (getSliceFromRow 0x1F 1) (getSliceFromRow 0x1F 2)
  = getSliceFromRow 0x1F 1 + getSliceFromRow 0x1F 2 /\
  Z.lxor (getSliceFromRow 0x1F 1) (getSliceFromRow 0x1F 2)
  = getSliceFromRow 0x1F 1 + getSliceFromRow 0x1F 2.
Proof. apply (getSliceFromRow_disjoint 0x1F 0x1F 1 2); lia. Defined.

(** ** Rotations of a row, composed *)

Lemma translateRow_bound_pos row dx : 0 < dx < 5 -> 0 <= translateRow row dx < 32.
Proof.
  intros Hdx. rewrite translateRow_pos by assumption. rewrite Z.land_ones by lia.
  change (2 ^ 5) with 32. apply Z.mod_pos_bound. lia.
Qed.

Lemma translateRow_bound row dx :
  0 <= row < 32 -> 0 <= dx < 5 -> 0 <= translateRow row dx < 32.
Proof.
  intros Hrow Hdx. destruct (Z.eq_dec dx 0) as [->|Hne].
  - now rewrite translateRow_0.
  - apply translateRow_bound_pos. lia.
Qed.

(** Bit [i] of the rotated row is bit [(i - dx) mod 5] of the row. *)
Lemma translateRow_testbit_mod row dx i :
  0 <= row < 32 -> 0 <= dx < 5 -> 0 <= i ->
  Z.testbit (translateRow row dx) i = (i <? 5) && Z.testbit row ((i - dx) mod 5).
Proof.
  intros Hrow Hdx Hi. destruct (Z.eq_dec dx 0) as [->|Hne].
  - rewrite translateRow_0, Z.sub_0_r. destruct (Z.ltb_spec i 5); cbn [andb].
    + now rewrite Z.mod_small by lia.
    + now apply row_testbit_high.
  - rewrite translateRow_testbit by lia.
    destruct (Z.ltb_spec i 5); [cbn [andb]|reflexivity].
    destruct (Z.ltb_spec i dx).
    + replace ((i - dx) mod 5) with (i + 5 - dx)
        by (apply Z.mod_unique with (q := -1); lia).
      reflexivity.
    + now rewrite Z.mod_small by lia.
Qed.

Lemma translateRow_compose_aux row a b :
  0 <= row < 32 -> 0 <= a < 5 -> 0 <= b < 5 ->
  translateRow (translateRow row a) b = translateRow row ((a + b) mod 5).
Proof.
  intros Hrow Ha Hb.
  pose proof (translateRow_bound row a Hrow Ha) as Hra.
  pose proof (Z.mod_pos_bound (a + b) 5 ltac:(lia)) as Hab.
  apply Z.bits_inj'. intros i Hi.
  pose proof (Z.mod_pos_bound (i - b) 5 ltac:(lia)) as Hib.
  rewrite (translateRow_testbit_mod (translateRow row a) b i) by (assumption || lia).
  rewrite (translateRow_testbit_mod row a) by (assumption || lia).
  rewrite (translateRow_testbit_mod row ((a + b) mod 5)) by (assumption || lia).
  destruct (Z.ltb_spec i 5); [cbn [andb]|reflexivity].
  decide_comparisons. cbn [andb]. f_equal.
  rewrite Zminus_mod_idemp_l, Zminus_mod_idemp_r. f_equal. lia.
Qed.

(** X11: two rotations of a 5-bit row in a row are the rotation by the sum
    of the shifts taken modulo 5. *)
Theorem translateRow_compose (row a b : Z) :
  0 <= row < 32 -> 0 <= a < 5 -> 0 <= b < 5 ->
  translateRow (translateRow row a) b = translateRow row ((a + b) mod 5).
Proof. apply translateRow_compose_aux. Qed.

Lemma translateRow_compose_witness :
  translateRow (translateRow 0x13 3) 4 = translateRow 0x13 ((3 + 4) mod 5).
Proof. apply (translateRow_compose 0x13 3 4); lia. Defined.

Lemma translateRow_inverse_aux row dx :
  0 <= row < 32 -> 0 <= dx < 5 ->
  translateRow (translateRow row dx) ((5 - dx) mod 5) = row.
Proof.
  intros Hrow Hdx.
  rewrite translateRow_compose_aux by (try assumption; apply Z.mod_pos_bound; lia).
  rewrite Zplus_mod_idemp_r. replace (dx + (5 - dx)) with (0 + 1 * 5) by lia.
  rewrite Z.mod_add by lia. apply translateRow_0.
Qed.

(** X12: the rotation by dx is undone by the rotation by (5 - dx) mod 5. *)
Theorem translateRow_inverse (row dx : Z) :
  0 <= row < 32 -> 0 <= dx < 5 ->
  translateRow (translateRow row dx) ((5 - dx) mod 5) = row.
Proof. apply translateRow_inverse_aux. Qed.

Lemma translateRow_inverse_witness :
  translateRow (translateRow 0x13 2) ((5 - 2) mod 5) = 0x13.
Proof. apply (translateRow_inverse 0x13 2); lia. Defined.

(** X13: for 0 < dx < 5 the result of [translateRow] has its bits 5-7 zero
    whatever the byte it is given (for dx = 0 the byte is handed back with
    the bits it has). *)
Theorem translateRow_masks (row dx : Z) :
  0 < dx < 5 -> 0 <= translateRow row dx < 32.
Proof. apply translateRow_bound_pos. Qed.

Lemma translateRow_masks_witness : 0 <= translateRow 0xFF 3 < 32.
Proof. apply (translateRow_masks 0xFF 3); lia. Defined.

Lemma lxor_row_bound a b : 0 <= a < 32 -> 0 <= b < 32 -> 0 <= Z.lxor a b < 32.
Proof.
  intros Ha Hb. apply (fits_of_high_bits 5); [lia|]. intros i Hi.
  now rewrite Z.lxor_spec, !row_testbit_high by lia.
Qed.

(** X14: the rotation is linear over XOR on 5-bit rows. *)
Theorem translateRow_lxor (a b dx : Z) :
  0 <= a < 32 -> 0 <= b < 32 -> 0 <= dx < 5 ->
  translateRow (Z.lxor a b) dx = Z.lxor (translateRow a dx) (translateRow b dx).
Proof.
  intros Ha Hb Hdx. pose proof (lxor_row_bound a b Ha Hb) as Hab.
  apply Z.bits_inj'. intros i Hi.
  rewrite Z.lxor_spec, !translateRow_testbit_mod, Z.lxor_spec by (assumption || lia).
  now destruct (i <? 5).
Qed.

Lemma translateRow_lxor_witness :
  translateRow (Z.lxor 0x13 0x0E) 2 = Z.lxor (translateRow 0x13 2) (translateRow 0x0E 2).
Proof. apply (translateRow_lxor 0x13 0x0E 2); lia. Defined.

Lemma translateRow_zero dx : 0 <= dx < 5 -> translateRow 0 dx = 0.
Proof. intros Hdx. each_coordinate dx; reflexivity. Qed.

(** X15: a rotation sends no row but the zero row to zero: an active row
    stays active. *)
Theorem translateRow_eq_0_iff (row dx : Z) :
  0 <= row < 32 -> 0 <= dx < 5 -> (translateRow row dx = 0 <-> row = 0).
Proof.
  intros Hrow Hdx. split.
  - intros H. rewrite <- (translateRow_inverse_aux row dx Hrow Hdx), H.
    apply translateRow_zero. apply Z.mod_pos_bound. lia.
  - intros ->. now apply translateRow_zero.
Qed.

Lemma translateRow_eq_0_iff_witness : translateRow 0x08 3 = 0 <-> 0x08 = 0.
Proof. apply (translateRow_eq_0_iff 0x08 3); lia. Defined.

(** ** Packed parities *)

Lemma getParitiesFromParity_testbit p z i :
  fits 8 p -> 0 <= z <= 12 -> 0 <= i ->
  Z.testbit (getParitiesFromParity p z) i
  = (5 * z <=? i) && (i <? 64) && Z.testbit p (i - 5 * z).
Proof.
  intros Hp Hz Hi. unfold getParitiesFromParity, shl, uint64.
  rewrite (wrap_small 64 p) by (eapply fits_mono; [|eassumption]; lia).
  rewrite uint32_small by (change (2 ^ 32) with 4294967296; lia).
  unfold wrap. rewrite Z.testbit_mod_pow2 by lia.
  destruct (Z.ltb_spec i 64), (Z.leb_spec (5 * z) i); cbn [andb];
    rewrite ?andb_false_r; try reflexivity.
  - rewrite Z.shiftl_spec by lia. reflexivity.
  - rewrite Z.shiftl_spec by lia. apply Z.testbit_neg_r. lia.
Qed.

Lemma getParityFromParities_testbit parities z i :
  0 <= z <= 12 -> 0 <= i ->
  Z.testbit (getParityFromParities parities z) i
  = (i <? 5) && Z.testbit parities (i + 5 * z).
Proof.
  intros Hz Hi. unfold getParityFromParities, shr. rewrite uint8_land_mask5.
  rewrite uint32_small by (change (2 ^ 32) with 4294967296; lia).
  rewrite mask5_ones, Z.land_spec, Z.shiftr_spec, Z.testbit_ones_nonneg by lia.
  apply andb_comm.
Qed.

(** X16: whatever the 64-bit word and the position, the parity read from a
    [PackedParities] is a value below 32. *)
Theorem getParityFromParities_lt_32 (parities z : Z) :
  0 <= getParityFromParities parities z < 32.
Proof. apply getParityFromParities_bound. Qed.

(** X17: ORing a parity below 32 into a packed word at position z, with
    z in 0..11, changes the parity read at z into its OR with the former
    one and leaves the parities read at the other positions as they were. *)
Theorem getParityFromParities_lor_getParitiesFromParity (acc p z z' : Z) :
  0 <= p < 32 -> 0 <= z <= 11 -> 0 <= z' <= 11 ->
  getParityFromParities (Z.lor acc (getParitiesFromParity p z)) z'
  = if z' =? z then Z.lor (getParityFromParities acc z) p
    else getParityFromParities acc z'.
Proof.
  intros Hp Hz Hz'.
  assert (Hbit : forall i, 0 <= i ->
            Z.testbit (getParityFromParities (Z.lor acc (getParitiesFromParity p z)) z') i
            = (i <? 5) && (Z.testbit acc (i + 5 * z') || (z' =? z) && Z.testbit p i)).
  { intros i Hi.
    rewrite getParityFromParities_testbit, Z.lor_spec, getParitiesFromParity_testbit
      by (auto with keccak; lia).
    destruct (Z.ltb_spec i 5); [cbn [andb]|reflexivity]. f_equal.
    destruct (Z.eqb_spec z' z) as [->|Hne]; cbn [andb].
    - replace (i + 5 * z - 5 * z) with i by lia. decide_comparisons. reflexivity.
    - destruct (Z.leb_spec (5 * z) (i + 5 * z')); [cbn [andb]|reflexivity].
      rewrite (row_testbit_high p) by lia. apply andb_false_r. }
  apply Z.bits_inj'. intros i Hi. rewrite Hbit by assumption.
  destruct (Z.eqb_spec z' z) as [->|Hne]; cbn [andb].
  - rewrite Z.lor_spec, getParityFromParities_testbit by lia.
    destruct (Z.ltb_spec i 5); cbn [andb]; [reflexivity|].
    symmetry. now apply row_testbit_high.
  - rewrite orb_false_r. now rewrite getParityFromParities_testbit by lia.
Qed.

Lemma getParityFromParities_lor_getParitiesFromParity_witness :
  getParityFromParities (Z.lor 0x3FF (getParitiesFromParity 0x15 3)) 1
  = if 1 =? 3 then Z.lor (getParityFromParities 0x3FF 3) 0x15
    else getParityFromParities 0x3FF 1.
Proof.
  apply (getParityFromParities_lor_getParitiesFromParity 0x3FF 0x15 3 1); lia.
Defined.

(** X18: a parity stored at position z of an empty packed word reads as
    zero at every other position: for z and z' in 0..11 the fields do not
    overlap. *)
Theorem getParityFromParities_other_position (p z z' : Z) :
  0 <= p < 32 -> 0 <= z <= 11 -> 0 <= z' <= 11 -> z' <> z ->
  getParityFromParities (getParitiesFromParity p z) z' = 0.
Proof.
  intros Hp Hz Hz' Hne. apply Z.bits_inj'. intros i Hi.
  rewrite Z.bits_0, getParityFromParities_testbit, getParitiesFromParity_testbit
    by (auto with keccak; lia).
  destruct (Z.ltb_spec i 5); [cbn [andb]|reflexivity].
  destruct (Z.leb_spec (5 * z) (i + 5 * z')); [cbn [andb]|reflexivity].
  rewrite (row_testbit_high p) by lia. apply andb_false_r.
Qed.

Lemma getParityFromParities_other_position_witness :
  getParityFromParities (getParitiesFromParity 0x1F 11) 10 = 0.
Proof. apply (getParityFromParities_other_position 0x1F 11 10); lia. Defined.

(** X19: what is read back from position z for any byte: its 5 low bits
    at the positions 0..11, and its 4 low bits only at position 12, where
    the 64-bit word ends. *)
Theorem getParityFromParities_getParitiesFromParity_byte (p z : Z) :
  fits 8 p -> 0 <= z <= 12 ->
  getParityFromParities (getParitiesFromParity p z) z
  = Z.land p (if z <? 12 then 0x1F else 0x0F).
Proof.
  intros Hp Hz. apply Z.bits_inj'. intros i Hi.
  rewrite getParityFromParities_testbit, getParitiesFromParity_testbit, Z.land_spec
    by (assumption || lia).
  replace (i + 5 * z - 5 * z) with i by lia.
  replace (5 * z <=? i + 5 * z) with true by (symmetry; apply Z.leb_le; lia).
  cbn [andb]. destruct (Z.ltb_spec z 12).
  - rewrite mask5_testbit by assumption.
    destruct (Z.ltb_spec i 5); cbn [andb]; [|now rewrite andb_false_r].
    decide_comparisons. cbn [andb]. now rewrite andb_true_r.
  - assert (z = 12) by lia. subst z. change 0x0F with (Z.ones 4).
    rewrite Z.testbit_ones_nonneg by lia.
    destruct (Z.ltb_spec i 4); decide_comparisons; cbn [andb];
      rewrite ?andb_true_r, ?andb_false_r; reflexivity.
Qed.

Lemma getParityFromParities_getParitiesFromParity_byte_witness :
  getParityFromParities (getParitiesFromParity 0xFF 12) 12
  = Z.land 0xFF (if 12 <? 12 then 0x1F else 0x0F).
Proof.
  apply (getParityFromParities_getParitiesFromParity_byte 0xFF 12); [unfold fits; lia | lia].
Defined.

(** X20: the value of [getParitiesFromParity p z] is the parity times 32^z,
    as the comment on [PackedParities] puts it, for a parity below 32 and
    z in 0..11. *)
Theorem getParitiesFromParity_value (p z : Z) :
  0 <= p < 32 -> 0 <= z <= 11 -> getParitiesFromParity p z = p * 32 ^ z.
Proof.
  intros Hp Hz. unfold getParitiesFromParity, shl, uint64.
  rewrite (wrap_small 64 p) by (unfold fits; change (2 ^ 64) with 18446744073709551616; lia).
  rewrite uint32_small by (change (2 ^ 32) with 4294967296; lia).
  rewrite Z.shiftl_mul_pow2 by lia.
  replace (2 ^ (5 * z)) with (32 ^ z) by (change 32 with (2 ^ 5); rewrite <- Z.pow_mul_r; [reflexivity|lia..]).
  apply wrap_small. unfold fits.
  assert (H32 : 0 < 32 ^ z <= 32 ^ 11)
    by (split; [apply Z.pow_pos_nonneg; lia | apply Z.pow_le_mono_r; lia]).
  change (32 ^ 11) with 36028797018963968 in H32.
  change (2 ^ 64) with 18446744073709551616. nia.
Qed.

Lemma getParitiesFromParity_value_witness :
  getParitiesFromParity 0x1F 11 = 0x1F * 32 ^ 11.
Proof. apply (getParitiesFromParity_value 0x1F 11); lia. Defined.
